(** * balrog: the access control policy (balrog/policy.py)

    A shallow embedding of the [Policy] class and the verification of its
    specification.  Python exceptions are an explicit result type, the
    mutable object, the outside world and the order of the calls made to
    the injected callables are an explicit state, and the dictionaries
    [self.roles] and [self.permissions] are finite maps over strings. *)

From stdpp Require Import gmap strings list fin_maps.

Open Scope string_scope.
Open Scope list_scope.

(** ** Exceptions and results *)

(** The exception classes the module raises or catches.  [PermissionNotFound]
    and [RoleNotFound] come from [balrog.exceptions]; [KeyError] is what a
    failed dictionary subscript raises and [AssertionError] what a failed
    [assert] raises.  [OtherError] stands for every other exception class a
    collaborator may raise. *)
Inductive exception : Type :=
| PermissionNotFound (message : string)
| RoleNotFound
| KeyError (key : string)
| AssertionError (message : string)
| OtherError (tag : string).

Inductive result (A : Type) : Type :=
| Return (a : A)
| Raise (e : exception).

Arguments Return {A} a.
Arguments Raise {A} e.

Definition is_PermissionNotFound (e : exception) : bool :=
  match e with PermissionNotFound _ => true | _ => false end.

Definition is_RoleNotFound (e : exception) : bool :=
  match e with RoleNotFound => true | _ => false end.

Definition raises {A} (r : result A) (p : exception -> bool) : Prop :=
  match r with Raise e => p e = true | Return _ => False end.

(** Modelled from the spec: the class [Permission] of balrog/permission.py,
    which is not part of the sources at hand.  [Permission(name)] stores the
    name verbatim and a permission is identified by its name. *)
Record Permission : Type := mkPermission { permission_name : string }.

(** An entry of the [permissions] argument of the constructor: what
    [isinstance(permission, basestring)] tells apart. *)
Inductive permission_entry : Type :=
| ByName (s : string)
| ByObject (p : Permission).

(** [str.format] with one positional field, as the two messages use it. *)
Definition format1 (before after arg : string) : string :=
  String.append before (String.append arg after).

(** A [for] loop whose body may raise: the first exception ends the loop. *)
Fixpoint for_each {S A} (body : S -> A -> result S) (s : S) (l : list A)
  : result S :=
  match l with
  | [] => Return s
  | x :: l' =>
      match body s x with
      | Return s' => for_each body s' l'
      | Raise e => Raise e
      end
  end.

(** [d[k]] on a dictionary. *)
Definition getitem {V} (d : gmap string V) (k : string) : result V :=
  match d !! k with
  | Some v => Return v
  | None => Raise (KeyError k)
  end.

(** [k in d] on a dictionary. *)
Definition contains {V} (d : gmap string V) (k : string) : bool :=
  match d !! k with Some _ => true | None => false end.

(** The truth value of a dictionary: it is true when [len(d)] is not zero. *)
Definition truth {V} (d : gmap string V) : bool := negb (Nat.eqb (size d) 0).

Section Policy.

(** The values the policy never looks into: identities, the positional and
    keyword arguments handed through to the callables, the collections being
    filtered, and the state of everything outside the policy object. *)
Variables Identity Context Objects World : Type.

(** A Python callable: it may change the outside world and may raise. *)
Definition callable (A : Type) : Type := World -> result A * World.

(** Modelled from the spec: the class [Role] of balrog/role.py, which is not
    part of the sources at hand.  The policy uses a role through its [name]
    attribute and its two methods only. *)
Record Role : Type := mkRole {
  role_name : string;
  role_check : Identity -> string -> Context -> callable bool;
  role_filter : Identity -> string -> Objects -> Context -> callable Objects
}.

(** The attributes of a [Policy] object. *)
Record Policy : Type := mkPolicy {
  _get_identity : Context -> callable Identity;
  _get_role : Identity -> Context -> callable string;
  roles : gmap string Role;
  permissions : option (gmap string Permission)
}.

(** *** The constructor *)

(** The body of the permission loop: a bare name is made into a
    [Permission], then the permission is stored under its name. *)
Definition materialize (permission : permission_entry) : Permission :=
  match permission with
  | ByName s => mkPermission s
  | ByObject p => p
  end.

Definition register_permission (d : gmap string Permission)
    (permission : permission_entry) : gmap string Permission :=
  let permission := materialize permission in
  <[permission_name permission := permission]> d.

Definition register_role (d : gmap string Role) (role : Role)
  : result (gmap string Role) :=
  if contains d (role_name role)
  then Raise (AssertionError
                (format1 "The role `" "` is already registered."
                         (role_name role)))
  else Return (<[role_name role := role]> d).

Definition __init__ (roles0 : list Role)
    (get_identity0 : Context -> callable Identity)
    (get_role0 : Identity -> Context -> callable string)
    (permissions0 : option (list permission_entry)) : result Policy :=
  let self_permissions :=
    match permissions0 with
    | Some l => Some (foldl register_permission ∅ l)
    | None => None
    end in
  match for_each register_role ∅ roles0 with
  | Return self_roles =>
      Return {| _get_identity := get_identity0;
                _get_role := get_role0;
                roles := self_roles;
                permissions := self_permissions |}
  | Raise e => Raise e
  end.

(** *** The state the methods run in *)

(** A call the policy makes to one of its collaborators. *)
Inductive Call : Type :=
| CallGetIdentity (ctx : Context)
| CallGetRole (identity : Identity) (ctx : Context)
| CallRoleCheck (role : Role) (identity : Identity) (permission : string)
                (ctx : Context)
| CallRoleFilter (role : Role) (identity : Identity) (permission : string)
                 (objects : Objects) (ctx : Context).

(** [self] is the policy object, [world] everything outside it.  [calls] is
    ghost state: the collaborator calls made so far, oldest first. *)
Record State : Type := mkState {
  self : Policy;
  world : World;
  calls : list Call
}.

Definition M (A : Type) : Type := State -> result A * State.

Definition ret {A} (a : A) : M A := fun s => (Return a, s).

Definition raise {A} (e : exception) : M A := fun s => (Raise e, s).

Definition bind {A B} (m : M A) (k : A -> M B) : M B :=
  fun s =>
    match m s with
    | (Return a, s') => k a s'
    | (Raise e, s') => (Raise e, s')
    end.

(** [try: m except <class>: h]: [handler e] is the clause that matches [e],
    if there is one. *)
Definition try_except {A} (m : M A) (handler : exception -> option (M A))
  : M A :=
  fun s =>
    match m s with
    | (Return a, s') => (Return a, s')
    | (Raise e, s') =>
        match handler e with
        | Some h => h s'
        | None => (Raise e, s')
        end
    end.

(** Reading an attribute of [self]. *)
Definition attr {A} (field : Policy -> A) : M A :=
  fun s => (Return (field (self s)), s).

(** Calling a collaborator. *)
Definition invoke {A} (c : Call) (f : callable A) : M A :=
  fun s =>
    let (r, w) := f (world s) in
    (r, {| self := self s; world := w; calls := calls s ++ [c] |}).

Definition lift {A} (r : result A) : M A := fun s => (r, s).

Notation "'let*' x ':=' m 'in' k" := (bind m (fun x => k))
  (at level 10, x name, m at level 100, k at level 200).
Notation "m '>>' k" := (bind m (fun _ => k))
  (at level 100, k at level 200, right associativity).

(** *** The methods *)

Definition _check_permission (permission : string) : M unit :=
  let* self_permissions := attr permissions in
  match self_permissions with
  | Some d =>
      if truth d && negb (contains d permission)
      then raise (PermissionNotFound
                    (format1 "Permission "
                             " was not found in the list of all permissions."
                             permission))
      else ret tt
  | None => ret tt
  end.

Definition get_identity (ctx : Context) : M Identity :=
  let* f := attr _get_identity in
  invoke (CallGetIdentity ctx) (f ctx).

Definition get_role (identity : Identity) (ctx : Context) : M Role :=
  let* f := attr _get_role in
  let* name := invoke (CallGetRole identity ctx) (f identity ctx) in
  try_except
    (let* self_roles := attr roles in lift (getitem self_roles name))
    (fun e => match e with
              | KeyError _ => Some (raise RoleNotFound)
              | _ => None
              end).

Definition check (permission : string) (ctx : Context) : M bool :=
  _check_permission permission >>
  let* identity := get_identity ctx in
  let* role :=
    try_except
      (let* role := get_role identity ctx in ret (Some role))
      (fun e => match e with
                | RoleNotFound => Some (ret None)
                | _ => None
                end) in
  match role with
  | None => ret false
  | Some role =>
      invoke (CallRoleCheck role identity permission ctx)
             (role_check role identity permission ctx)
  end.

Definition filter (permission : string) (objects : Objects) (ctx : Context)
  : M Objects :=
  _check_permission permission >>
  let* identity := get_identity ctx in
  let* role := get_role identity ctx in
  invoke (CallRoleFilter role identity permission objects ctx)
         (role_filter role identity permission objects ctx).

(** *** Vocabulary of the specification *)

(** The permission universe of [p] admits [n]: either no universe is
    configured, or [n] is one of its keys. *)
Definition admits (p : Policy) (n : string) : Prop :=
  match permissions p with
  | None => True
  | Some u => is_Some (u !! n)
  end.

(** The state reached once the identity provider has answered in [s]. *)
Definition identified (ctx : Context) (s : State) (w : World) : State :=
  {| self := self s; world := w; calls := calls s ++ [CallGetIdentity ctx] |}.

(** The outputs of the collaborators of [p] do not depend on the world they
    are called in. *)
Definition fixed_output {A} (f : callable A) : Prop :=
  forall w w', fst (f w) = fst (f w').

Record fixed_outputs (p : Policy) : Prop := {
  fixed_identity : forall ctx, fixed_output (_get_identity p ctx);
  fixed_role_name : forall identity ctx,
      fixed_output (_get_role p identity ctx);
  fixed_check : forall name role identity n ctx,
      roles p !! name = Some role ->
      fixed_output (role_check role identity n ctx);
  fixed_filter : forall name role identity n objects ctx,
      roles p !! name = Some role ->
      fixed_output (role_filter role identity n objects ctx)
}.

(** Two entries of [rs], at different positions, carry the same name. *)
Definition same_name_twice (rs : list Role) : Prop :=
  exists i j r1 r2,
    i <> j /\ rs !! i = Some r1 /\ rs !! j = Some r2 /\
    role_name r1 = role_name r2.

(** The name an entry of the [permissions] argument stands for. *)
Definition entry_name (permission : permission_entry) : string :=
  match permission with
  | ByName s => s
  | ByObject p => permission_name p
  end.

(** ** Equations of the methods *)

(** Validation reads [self.permissions] and touches nothing. *)
Lemma _check_permission_state permission s :
  snd (_check_permission permission s) = s.
Proof.
  unfold _check_permission, bind, attr. cbn.
  destruct (permissions (self s)) as [d|]; [|reflexivity].
  destruct (truth d && negb (contains d permission)); reflexivity.
Qed.

Lemma _check_permission_eta permission s :
  _check_permission permission s = (fst (_check_permission permission s), s).
Proof.
  rewrite <- (_check_permission_state permission s) at 3.
  apply surjective_pairing.
Qed.

(** Validation raises nothing but [PermissionNotFound]. *)
Lemma _check_permission_Raise permission s e :
  fst (_check_permission permission s) = Raise e ->
  is_PermissionNotFound e = true.
Proof.
  unfold _check_permission, bind, attr. cbn.
  destruct (permissions (self s)) as [d|]; [|discriminate].
  destruct (truth d && negb (contains d permission)); cbn; [|discriminate].
  intros [= <-]. reflexivity.
Qed.

(** When validation raises: the universe is configured, it is not empty and
    the name is not one of its keys. *)
Lemma _check_permission_raises permission s :
  raises (fst (_check_permission permission s)) is_PermissionNotFound <->
  exists u, permissions (self s) = Some u /\ size u <> 0 /\
            u !! permission = None.
Proof.
  unfold _check_permission, bind, attr, truth, contains. cbn.
  destruct (permissions (self s)) as [d|]; cbn.
  - destruct (Nat.eqb_spec (size d) 0) as [E|E]; cbn.
    + split; [tauto|]. intros (u & [= <-] & Hu & _). tauto.
    + destruct (d !! permission) eqn:L; cbn.
      * split; [tauto|]. intros (u & [= <-] & _ & Hu). congruence.
      * split; [|reflexivity]. intros _. exists d. auto.
  - split; [tauto|]. intros (u & Hu & _). discriminate.
Qed.

Lemma _check_permission_admits permission s :
  admits (self s) permission ->
  _check_permission permission s = (Return tt, s).
Proof.
  unfold admits, _check_permission, bind, attr, contains. cbn.
  destruct (permissions (self s)) as [d|]; [|reflexivity].
  intros [v ->]. now rewrite andb_false_r.
Qed.

Lemma get_identity_eq ctx s :
  get_identity ctx s =
    (fst (_get_identity (self s) ctx (world s)),
     identified ctx s (snd (_get_identity (self s) ctx (world s)))).
Proof.
  unfold get_identity, bind, attr, invoke, identified. cbn.
  now destruct (_get_identity (self s) ctx (world s)).
Qed.

(** The state reached once the role name provider has answered in [s]. *)
Definition named (identity : Identity) (ctx : Context) (s : State)
    (w : World) : State :=
  {| self := self s; world := w;
     calls := calls s ++ [CallGetRole identity ctx] |}.

Lemma get_role_eq identity ctx s :
  get_role identity ctx s =
    match _get_role (self s) identity ctx (world s) with
    | (Return name, w) =>
        (match roles (self s) !! name with
         | Some role => Return role
         | None => Raise RoleNotFound
         end, named identity ctx s w)
    | (Raise e, w) => (Raise e, named identity ctx s w)
    end.
Proof.
  unfold get_role, bind, attr, invoke, try_except, lift, getitem, named. cbn.
  destruct (_get_role (self s) identity ctx (world s)) as [[name|e] w];
    cbn; [|reflexivity].
  now destruct (roles (self s) !! name).
Qed.

(** [check], one step after the other. *)
Lemma check_eq permission ctx s :
  check permission ctx s =
    match _check_permission permission s with
    | (Raise e, s0) => (Raise e, s0)
    | (Return _, s0) =>
        match get_identity ctx s0 with
        | (Raise e, s1) => (Raise e, s1)
        | (Return who, s1) =>
            match get_role who ctx s1 with
            | (Return role, s2) =>
                invoke (CallRoleCheck role who permission ctx)
                       (role_check role who permission ctx) s2
            | (Raise RoleNotFound, s2) => (Return false, s2)
            | (Raise e, s2) => (Raise e, s2)
            end
        end
    end.
Proof.
  unfold check, bind at 1.
  destruct (_check_permission permission s) as [[[]|e] s0]; [|reflexivity].
  unfold bind at 1.
  destruct (get_identity ctx s0) as [[who|e] s1]; [|reflexivity].
  unfold bind at 1, try_except, bind at 1.
  destruct (get_role who ctx s1) as [[role|e] s2]; [reflexivity|].
  now destruct e.
Qed.

(** [filter], one step after the other. *)
Lemma filter_eq permission objects ctx s :
  filter permission objects ctx s =
    match _check_permission permission s with
    | (Raise e, s0) => (Raise e, s0)
    | (Return _, s0) =>
        match get_identity ctx s0 with
        | (Raise e, s1) => (Raise e, s1)
        | (Return who, s1) =>
            match get_role who ctx s1 with
            | (Return role, s2) =>
                invoke (CallRoleFilter role who permission objects ctx)
                       (role_filter role who permission objects ctx) s2
            | (Raise e, s2) => (Raise e, s2)
            end
        end
    end.
Proof.
  unfold filter, bind at 1.
  destruct (_check_permission permission s) as [[[]|e] s0]; [|reflexivity].
  unfold bind at 1.
  destruct (get_identity ctx s0) as [[who|e] s1]; [|reflexivity].
  unfold bind at 1.
  now destruct (get_role who ctx s1) as [[role|e] s2].
Qed.

Lemma invoke_eq {A} (c : Call) (f : callable A) s :
  invoke c f s =
    (fst (f (world s)),
     {| self := self s; world := snd (f (world s));
        calls := calls s ++ [c] |}).
Proof. unfold invoke. now destruct (f (world s)). Qed.

(** A universe that is configured but empty is false as a truth value:
    validation returns normally for every name. *)
Lemma empty_universe_rejects_nothing get_identity0 get_role0 roles0 w cs n :
  let s := mkState (mkPolicy get_identity0 get_role0 roles0 (Some ∅)) w cs in
  _check_permission n s = (Return tt, s).
Proof. reflexivity. Qed.

(** *** The results of [check] and [filter] *)

(** What [check] returns, from what the collaborators answer. *)
Lemma check_result permission ctx s :
  fst (check permission ctx s) =
    match fst (_check_permission permission s) with
    | Raise e => Raise e
    | Return _ =>
        match _get_identity (self s) ctx (world s) with
        | (Raise e, _) => Raise e
        | (Return who, w1) =>
            match _get_role (self s) who ctx w1 with
            | (Raise RoleNotFound, _) => Return false
            | (Raise e, _) => Raise e
            | (Return name, w2) =>
                match roles (self s) !! name with
                | None => Return false
                | Some role => fst (role_check role who permission ctx w2)
                end
            end
        end
    end.
Proof.
  rewrite check_eq, _check_permission_eta, get_identity_eq.
  destruct (fst (_check_permission permission s)) as [[]|e]; [|reflexivity].
  destruct (_get_identity (self s) ctx (world s)) as [[who|e] w1];
    [|reflexivity].
  cbn [fst snd]. rewrite get_role_eq. cbn.
  destruct (_get_role (self s) who ctx w1) as [[name|e] w2].
  - destruct (roles (self s) !! name) as [role|]; [|reflexivity].
    now rewrite invoke_eq.
  - now destruct e.
Qed.

(** What [filter] returns, from what the collaborators answer. *)
Lemma filter_result permission objects ctx s :
  fst (filter permission objects ctx s) =
    match fst (_check_permission permission s) with
    | Raise e => Raise e
    | Return _ =>
        match _get_identity (self s) ctx (world s) with
        | (Raise e, _) => Raise e
        | (Return who, w1) =>
            match _get_role (self s) who ctx w1 with
            | (Raise e, _) => Raise e
            | (Return name, w2) =>
                match roles (self s) !! name with
                | None => Raise RoleNotFound
                | Some role =>
                    fst (role_filter role who permission objects ctx w2)
                end
            end
        end
    end.
Proof.
  rewrite filter_eq, _check_permission_eta, get_identity_eq.
  destruct (fst (_check_permission permission s)) as [[]|e]; [|reflexivity].
  destruct (_get_identity (self s) ctx (world s)) as [[who|e] w1];
    [|reflexivity].
  cbn [fst snd]. rewrite get_role_eq. cbn.
  destruct (_get_role (self s) who ctx w1) as [[name|e] w2]; [|reflexivity].
  destruct (roles (self s) !! name) as [role|]; [|reflexivity].
  now rewrite invoke_eq.
Qed.

(** Validation looks at [self] only. *)
Lemma _check_permission_self permission s s' :
  self s = self s' ->
  fst (_check_permission permission s) =
    fst (_check_permission permission s').
Proof.
  intros E. unfold _check_permission, bind, attr. cbn. rewrite E.
  destruct (permissions (self s')) as [d|]; [|reflexivity].
  now destruct (truth d && negb (contains d permission)).
Qed.

Lemma get_identity_self ctx s : self (snd (get_identity ctx s)) = self s.
Proof. now rewrite get_identity_eq. Qed.

Lemma get_role_self identity ctx s :
  self (snd (get_role identity ctx s)) = self s.
Proof.
  rewrite get_role_eq.
  now destruct (_get_role (self s) identity ctx (world s)) as [[name|e] w].
Qed.

Lemma check_self permission ctx s :
  self (snd (check permission ctx s)) = self s.
Proof.
  rewrite check_eq, _check_permission_eta.
  destruct (fst (_check_permission permission s)) as [[]|e]; [|reflexivity].
  pose proof (get_identity_self ctx s) as H1.
  destruct (get_identity ctx s) as [[who|e] s1]; cbn in H1; [|exact H1].
  pose proof (get_role_self who ctx s1) as H2.
  destruct (get_role who ctx s1) as [[role|e] s2]; cbn in H2.
  - rewrite invoke_eq. cbn. congruence.
  - destruct e; cbn; congruence.
Qed.

Lemma filter_self permission objects ctx s :
  self (snd (filter permission objects ctx s)) = self s.
Proof.
  rewrite filter_eq, _check_permission_eta.
  destruct (fst (_check_permission permission s)) as [[]|e]; [|reflexivity].
  pose proof (get_identity_self ctx s) as H1.
  destruct (get_identity ctx s) as [[who|e] s1]; cbn in H1; [|exact H1].
  pose proof (get_role_self who ctx s1) as H2.
  destruct (get_role who ctx s1) as [[role|e] s2]; cbn in H2.
  - rewrite invoke_eq. cbn. congruence.
  - cbn. congruence.
Qed.

(** With collaborators of fixed output, the result of [check] is a function
    of the policy object alone. *)
Lemma check_fixed permission ctx s s' :
  fixed_outputs (self s) ->
  self s = self s' ->
  fst (check permission ctx s) = fst (check permission ctx s').
Proof.
  intros [Hid Hname Hcheck _] E.
  rewrite !check_result, <- (_check_permission_self permission s s' E), <- E.
  destruct (fst (_check_permission permission s)) as [[]|e]; [|reflexivity].
  specialize (Hid ctx (world s) (world s')).
  destruct (_get_identity (self s) ctx (world s)) as [r1 w1],
           (_get_identity (self s) ctx (world s')) as [r1' w1'].
  cbn in Hid. subst r1'. destruct r1 as [who|e]; [|reflexivity].
  specialize (Hname who ctx w1 w1').
  destruct (_get_role (self s) who ctx w1) as [r2 w2],
           (_get_role (self s) who ctx w1') as [r2' w2'].
  cbn in Hname. subst r2'. destruct r2 as [name|e]; [|reflexivity].
  destruct (roles (self s) !! name) as [role|] eqn:L; [|reflexivity].
  exact (Hcheck name role who permission ctx L w2 w2').
Qed.

Lemma filter_fixed permission objects ctx s s' :
  fixed_outputs (self s) ->
  self s = self s' ->
  fst (filter permission objects ctx s) =
    fst (filter permission objects ctx s').
Proof.
  intros [Hid Hname _ Hfilter] E.
  rewrite !filter_result, <- (_check_permission_self permission s s' E), <- E.
  destruct (fst (_check_permission permission s)) as [[]|e]; [|reflexivity].
  specialize (Hid ctx (world s) (world s')).
  destruct (_get_identity (self s) ctx (world s)) as [r1 w1],
           (_get_identity (self s) ctx (world s')) as [r1' w1'].
  cbn in Hid. subst r1'. destruct r1 as [who|e]; [|reflexivity].
  specialize (Hname who ctx w1 w1').
  destruct (_get_role (self s) who ctx w1) as [r2 w2],
           (_get_role (self s) who ctx w1') as [r2' w2'].
  cbn in Hname. subst r2'. destruct r2 as [name|e]; [|reflexivity].
  destruct (roles (self s) !! name) as [role|] eqn:L; [|reflexivity].
  exact (Hfilter name role who permission objects ctx L w2 w2').
Qed.

(** *** The loops of the constructor *)

Lemma same_name_twice_not_NoDup rs :
  same_name_twice rs -> ~ NoDup (role_name <$> rs).
Proof.
  intros (i & j & r1 & r2 & Hij & H1 & H2 & Hname) Hnodup.
  apply Hij.
  apply (proj1 (NoDup_alt _) Hnodup i j (role_name r1)).
  - now rewrite list_lookup_fmap, H1.
  - now rewrite list_lookup_fmap, H2, Hname.
Qed.

(** The role loop succeeds when the names are distinct and new to [d]; the
    dictionary it leaves holds [d] and every role under its name. *)
Lemma register_roles_Return rs : forall d,
  NoDup (role_name <$> rs) ->
  (forall r, r ∈ rs -> d !! role_name r = None) ->
  exists d', for_each register_role d rs = Return d' /\
    forall k r, d' !! k = Some r <->
                (r ∈ rs /\ role_name r = k) \/ d !! k = Some r.
Proof.
  induction rs as [|r0 rs IH]; intros d Hnodup Hfresh; cbn.
  - exists d. split; [reflexivity|]. intros k r. split; [auto|].
    intros [[Hin _]|H]; [|exact H]. now apply not_elem_of_nil in Hin.
  - rewrite fmap_cons in Hnodup. apply NoDup_cons in Hnodup as [Hnotin Hnodup].
    unfold register_role at 1, contains.
    rewrite (Hfresh r0) by apply list_elem_of_here.
    destruct (IH (<[role_name r0 := r0]> d) Hnodup) as (d' & Hd' & Hlook).
    + intros r Hr. rewrite lookup_insert_ne.
      * apply Hfresh. now apply list_elem_of_further.
      * intros E. apply Hnotin. rewrite E. now apply list_elem_of_fmap_2.
    + exists d'. split; [exact Hd'|]. intros k r. rewrite Hlook.
      rewrite elem_of_cons. split.
      * intros [[Hin Hk]|Hins]; [left; split; auto|].
        destruct (decide (role_name r0 = k)) as [E|E].
        -- subst k. rewrite lookup_insert_eq in Hins.
           injection Hins as ->. left. split; auto.
        -- rewrite lookup_insert_ne in Hins by exact E. now right.
      * intros [[[->|Hin] Hk]|Hd].
        -- right. subst k. apply lookup_insert_eq.
        -- left. split; auto.
        -- right. rewrite lookup_insert_ne; [exact Hd|].
           intros E. subst k.
           rewrite (Hfresh r0) in Hd by apply list_elem_of_here.
           discriminate.
Qed.

(** Otherwise the assertion of the loop fails. *)
Lemma register_roles_Raise rs : forall d,
  ~ (NoDup (role_name <$> rs) /\
     forall r, r ∈ rs -> d !! role_name r = None) ->
  exists message, for_each register_role d rs = Raise (AssertionError message).
Proof.
  induction rs as [|r0 rs IH]; intros d Hbad; cbn.
  - exfalso. apply Hbad. split; [constructor|].
    intros r Hr. now apply not_elem_of_nil in Hr.
  - unfold register_role at 1, contains.
    destruct (d !! role_name r0) as [r|] eqn:Hr0; [eauto|].
    apply IH. intros [Hnodup Hfresh]. apply Hbad.
    assert (Hnotin : role_name r0 ∉ role_name <$> rs).
    { intros Hin. apply list_elem_of_fmap in Hin as (r & E & Hr).
      specialize (Hfresh r Hr). rewrite <- E, lookup_insert_eq in Hfresh.
      discriminate. }
    split.
    + rewrite fmap_cons. now apply NoDup_cons.
    + intros r Hr. apply elem_of_cons in Hr as [->|Hr]; [exact Hr0|].
      specialize (Hfresh r Hr).
      rewrite lookup_insert_ne in Hfresh; [exact Hfresh|].
      intros E. apply Hnotin. rewrite E. now apply list_elem_of_fmap_2.
Qed.

Lemma materialize_name e : permission_name (materialize e) = entry_name e.
Proof. now destruct e. Qed.

Lemma register_permission_lookup d e n :
  register_permission d e !! n =
    if decide (entry_name e = n) then Some (materialize e) else d !! n.
Proof.
  unfold register_permission. cbn. rewrite materialize_name.
  apply lookup_insert.
Qed.

(** The permission loop: a key of the result is a key of [d] or the name of
    an entry, and what is stored under a name of an entry carries that
    name. *)
Lemma register_permissions_keys l : forall d n,
  is_Some (foldl register_permission d l !! n) <->
  n ∈ entry_name <$> l \/ is_Some (d !! n).
Proof.
  induction l as [|e l IH]; intros d n; cbn.
  - split; [auto|]. intros [H|H]; [|exact H].
    now apply not_elem_of_nil in H.
  - rewrite IH, elem_of_cons, register_permission_lookup.
    destruct (decide (entry_name e = n)) as [<-|Hne].
    + split; [auto|]. intros _. right. eauto.
    + split.
      * intros [H|H]; auto.
      * intros [[H|H]|H]; auto. congruence.
Qed.

Lemma register_permissions_values l : forall d n permission,
  foldl register_permission d l !! n = Some permission ->
  (permission_name permission = n /\
   exists e, e ∈ l /\ permission = materialize e) \/
  d !! n = Some permission.
Proof.
  induction l as [|e l IH]; intros d n permission; cbn; [auto|].
  intros H. apply IH in H as [(Hn & e' & He' & Hval)|H].
  - left. split; [exact Hn|]. exists e'. split; [|exact Hval].
    now apply list_elem_of_further.
  - rewrite register_permission_lookup in H.
    destruct (decide (entry_name e = n)) as [<-|Hne]; [|now right].
    injection H as <-. left. split; [apply materialize_name|].
    exists e. split; [apply list_elem_of_here|reflexivity].
Qed.

(** ** The specification *)

(** C2: [check] never lets the [RoleNotFound] of role resolution out.  For a
    name the universe admits, once the identity provider has answered, if
    [get_role] raises [RoleNotFound] then [check] returns [False].  A
    [RoleNotFound] that does come out of [check] was raised by the identity
    provider or by the check of the resolved role, not by role resolution. *)
Theorem check_catches_RoleNotFound permission ctx s :
  (forall identity s1,
      admits (self s) permission ->
      get_identity ctx s = (Return identity, s1) ->
      raises (fst (get_role identity ctx s1)) is_RoleNotFound ->
      check permission ctx s =
        (Return false, snd (get_role identity ctx s1))) /\
  (raises (fst (check permission ctx s)) is_RoleNotFound ->
   raises (fst (_get_identity (self s) ctx (world s))) is_RoleNotFound \/
   exists identity w1 name w2 role,
     _get_identity (self s) ctx (world s) = (Return identity, w1) /\
     _get_role (self s) identity ctx w1 = (Return name, w2) /\
     roles (self s) !! name = Some role /\
     raises (fst (role_check role identity permission ctx w2))
            is_RoleNotFound).
Proof.
  split.
  - intros identity s1 Hadm Hid Hrole.
    rewrite check_eq, (_check_permission_admits _ _ Hadm), Hid.
    destruct (get_role identity ctx s1) as [[role|e] s2]; cbn in *; [tauto|].
    now destruct e.
  - rewrite check_result.
    destruct (fst (_check_permission permission s)) as [[]|e] eqn:Hperm.
    + destruct (_get_identity (self s) ctx (world s)) as [[who|e] w1];
        [|now left].
      intros H. right.
      destruct (_get_role (self s) who ctx w1) as [[name|e] w2] eqn:Hname.
      * destruct (roles (self s) !! name) as [role|] eqn:Hlook; [|easy].
        exists who, w1, name, w2, role. auto.
      * now destruct e.
    + intros H. apply _check_permission_Raise in Hperm.
      now destruct e.
Qed.

(** C3: role resolution failure is not swallowed by [get_role] nor by
    [filter].  When the name the role name provider returns is not a key of
    [self.roles], [get_role] raises [RoleNotFound]; and so does [filter],
    once validation has passed and the identity provider has answered. *)
Theorem filter_propagates_RoleNotFound :
  (forall identity ctx s name w,
      _get_role (self s) identity ctx (world s) = (Return name, w) ->
      roles (self s) !! name = None ->
      fst (get_role identity ctx s) = Raise RoleNotFound) /\
  (forall permission objects ctx s identity s1 name w,
      fst (_check_permission permission s) = Return tt ->
      get_identity ctx s = (Return identity, s1) ->
      _get_role (self s1) identity ctx (world s1) = (Return name, w) ->
      roles (self s1) !! name = None ->
      fst (filter permission objects ctx s) = Raise RoleNotFound).
Proof.
  assert (G : forall identity ctx s name w,
             _get_role (self s) identity ctx (world s) = (Return name, w) ->
             roles (self s) !! name = None ->
             fst (get_role identity ctx s) = Raise RoleNotFound).
  { intros identity ctx s name w Hname Hnone.
    now rewrite get_role_eq, Hname, Hnone. }
  split; [exact G|].
  intros permission objects ctx s identity s1 name w Hperm Hid Hname Hnone.
  rewrite filter_eq, _check_permission_eta, Hperm, Hid.
  specialize (G identity ctx s1 name w Hname Hnone).
  destruct (get_role identity ctx s1) as [[role|e] s2]; cbn in *;
    congruence.
Qed.

(** C5: [check] returns what the role returns.  Once validation has passed
    and the identity provider has answered, if [get_role] returns a role then
    [check] returns exactly the result of the [check] of that role, called
    with the same identity, permission name and context; if [get_role] finds
    no role, [check] returns [False]. *)
Theorem check_returns_role_check permission ctx s identity s1 :
  fst (_check_permission permission s) = Return tt ->
  get_identity ctx s = (Return identity, s1) ->
  (forall role s2,
      get_role identity ctx s1 = (Return role, s2) ->
      fst (check permission ctx s) =
        fst (role_check role identity permission ctx (world s2)) /\
      world (snd (check permission ctx s)) =
        snd (role_check role identity permission ctx (world s2))) /\
  (forall s2,
      get_role identity ctx s1 = (Raise RoleNotFound, s2) ->
      check permission ctx s = (Return false, s2)).
Proof.
  intros Hperm Hid.
  split.
  - intros role s2 Hrole.
    rewrite check_eq, _check_permission_eta, Hperm, Hid, Hrole, invoke_eq.
    now split.
  - intros s2 Hrole.
    now rewrite check_eq, _check_permission_eta, Hperm, Hid, Hrole.
Qed.

(** C6: duplicate role names abort the construction.  When two of the roles
    carry the same name the constructor raises [AssertionError] and yields no
    policy; when the names are all distinct it returns a policy whose
    [roles] holds every role under its name, and nothing else. *)
Theorem init_role_names rs get_identity0 get_role0 permissions0 :
  (same_name_twice rs ->
   exists message,
     __init__ rs get_identity0 get_role0 permissions0 =
       Raise (AssertionError message)) /\
  (NoDup (role_name <$> rs) ->
   exists p,
     __init__ rs get_identity0 get_role0 permissions0 = Return p /\
     (forall r, r ∈ rs -> roles p !! role_name r = Some r) /\
     (forall k r, roles p !! k = Some r -> r ∈ rs /\ role_name r = k)).
Proof.
  unfold __init__. split.
  - intros Htwice. apply same_name_twice_not_NoDup in Htwice.
    destruct (register_roles_Raise rs ∅) as [message E]; [tauto|].
    exists message. now rewrite E.
  - intros Hnodup.
    destruct (register_roles_Return rs ∅ Hnodup) as (d & E & Hlook).
    { intros r _. apply lookup_empty. }
    rewrite E. eexists. split; [reflexivity|]. cbn. split.
    + intros r Hr. apply Hlook. left. now split.
    + intros k r Hk. apply Hlook in Hk as [Hk|Hk]; [exact Hk|].
      now rewrite lookup_empty in Hk.
Qed.

(** C7: the permission universe after construction.  When a sequence of
    permissions is given and the construction succeeds, the universe is
    configured, its keys are exactly the names of the entries, and what it
    holds under a key is an entry of that name, a bare name having been made
    into a [Permission]. *)
Theorem init_permissions rs get_identity0 get_role0 l p :
  __init__ rs get_identity0 get_role0 (Some l) = Return p ->
  exists u,
    permissions p = Some u /\
    (forall n, is_Some (u !! n) <-> n ∈ entry_name <$> l) /\
    (forall n permission,
        u !! n = Some permission ->
        permission_name permission = n /\
        exists e, e ∈ l /\ permission = materialize e) /\
    (forall name, ByName name ∈ l -> u !! name = Some (mkPermission name)).
Proof.
  unfold __init__.
  destruct (for_each register_role ∅ rs) as [d|e]; [|discriminate].
  intros [= <-]. cbn. eexists. split; [reflexivity|].
  assert (V : forall n permission,
             foldl register_permission ∅ l !! n = Some permission ->
             permission_name permission = n /\
             exists e, e ∈ l /\ permission = materialize e).
  { intros n permission H.
    apply register_permissions_values in H as [H|H]; [exact H|].
    now rewrite lookup_empty in H. }
  split; [|split; [exact V|]].
  - intros n. rewrite register_permissions_keys. split; [|auto].
    intros [H|H]; [exact H|]. rewrite lookup_empty in H.
    now apply is_Some_None in H.
  - intros name Hin.
    destruct (proj2 (register_permissions_keys l ∅ name)) as [q Hq].
    { left. now apply (list_elem_of_fmap_2 entry_name) in Hin. }
    rewrite Hq. destruct (V _ _ Hq) as [Hname _].
    destruct q as [n']. cbn in Hname. now subst.
Qed.

(** C8: the providers.  [get_identity] returns exactly what the identity
    provider returns when called with the context, and leaves the world as
    the provider left it.  [get_role] calls the role name provider with the
    identity and the context, and then looks the name it returned up in
    [self.roles]; when the provider raises, no lookup takes place. *)
Theorem providers_are_invoked identity ctx s :
  (fst (get_identity ctx s) = fst (_get_identity (self s) ctx (world s)) /\
   world (snd (get_identity ctx s)) =
     snd (_get_identity (self s) ctx (world s)) /\
   calls (snd (get_identity ctx s)) = calls s ++ [CallGetIdentity ctx]) /\
  (fst (get_role identity ctx s) =
     match fst (_get_role (self s) identity ctx (world s)) with
     | Return name =>
         match roles (self s) !! name with
         | Some role => Return role
         | None => Raise RoleNotFound
         end
     | Raise e => Raise e
     end /\
   world (snd (get_role identity ctx s)) =
     snd (_get_role (self s) identity ctx (world s)) /\
   calls (snd (get_role identity ctx s)) =
     calls s ++ [CallGetRole identity ctx]).
Proof.
  rewrite get_identity_eq, get_role_eq. split; [now cbn|].
  now destruct (_get_role (self s) identity ctx (world s)) as [[name|e] w].
Qed.


(** C10: [RoleNotFound] out of role resolution is the only exception [check]
    turns into a deny.  The exception validation raises, any exception the
    identity provider raises, any exception other than [RoleNotFound] the
    role name provider raises, and any exception the check of the role
    raises, all reach the caller as they are. *)
Theorem check_propagates_other_exceptions permission ctx s :
  (forall e,
      fst (_check_permission permission s) = Raise e ->
      fst (check permission ctx s) = Raise e) /\
  (fst (_check_permission permission s) = Return tt ->
   (forall e w,
       _get_identity (self s) ctx (world s) = (Raise e, w) ->
       fst (check permission ctx s) = Raise e) /\
   (forall identity w1,
       _get_identity (self s) ctx (world s) = (Return identity, w1) ->
       (forall e w2,
           _get_role (self s) identity ctx w1 = (Raise e, w2) ->
           is_RoleNotFound e = false ->
           fst (check permission ctx s) = Raise e) /\
       (forall name w2 role e w3,
           _get_role (self s) identity ctx w1 = (Return name, w2) ->
           roles (self s) !! name = Some role ->
           role_check role identity permission ctx w2 = (Raise e, w3) ->
           fst (check permission ctx s) = Raise e))).
Proof.
  rewrite check_result. split.
  - now intros e ->.
  - intros ->. split.
    + now intros e w ->.
    + intros identity w1 ->. split.
      * intros e w2 -> He. now destruct e.
      * now intros name w2 role e w3 -> -> ->.
Qed.

(** ** Further properties of the methods *)

(** The message of the [PermissionNotFound] validation raises. *)
Definition not_found_message (permission : string) : string :=
  format1 "Permission " " was not found in the list of all permissions."
          permission.

(** The message of the [AssertionError] the role loop raises. *)
Definition registered_message (name : string) : string :=
  format1 "The role `" "` is already registered." name.

(** Validation rejects [permission]: what the test of [_check_permission]
    asks of [self.permissions], a dictionary that is not empty and lacks the
    name. *)
Definition rejects (p : Policy) (permission : string) : Prop :=
  exists u, permissions p = Some u /\ u <> ∅ /\ u !! permission = None.

Lemma _check_permission_rejects permission s :
  rejects (self s) permission ->
  _check_permission permission s =
    (Raise (PermissionNotFound (not_found_message permission)), s).
Proof.
  intros (u & Hu & Hne & Hnone).
  unfold _check_permission, bind, attr, truth, contains. cbn.
  rewrite Hu, Hnone. apply map_size_non_empty_iff in Hne.
  destruct (Nat.eqb_spec (size u) 0) as [E|E]; [tauto|reflexivity].
Qed.

Lemma _check_permission_accepts permission s :
  ~ rejects (self s) permission ->
  _check_permission permission s = (Return tt, s).
Proof.
  intros Hacc.
  unfold _check_permission, bind, attr, truth, contains. cbn.
  destruct (permissions (self s)) as [d|] eqn:Hd; [|reflexivity].
  destruct (Nat.eqb_spec (size d) 0) as [E|E]; [reflexivity|].
  destruct (d !! permission) eqn:L; [reflexivity|].
  exfalso. apply Hacc. exists d. split; [exact Hd|].
  split; [now apply map_size_non_empty_iff|exact L].
Qed.

(** The runs of [check], from what the collaborators answer: a rejected
    name, a role name that is not registered, and a role that is found. *)
Lemma check_rejected_run permission ctx s :
  rejects (self s) permission ->
  check permission ctx s =
    (Raise (PermissionNotFound (not_found_message permission)), s).
Proof.
  intros H. now rewrite check_eq, (_check_permission_rejects _ _ H).
Qed.

Lemma check_unresolved_run permission ctx s identity w1 name w2 :
  ~ rejects (self s) permission ->
  _get_identity (self s) ctx (world s) = (Return identity, w1) ->
  _get_role (self s) identity ctx w1 = (Return name, w2) ->
  roles (self s) !! name = None ->
  check permission ctx s =
    (Return false,
     {| self := self s; world := w2;
        calls := calls s ++ [CallGetIdentity ctx; CallGetRole identity ctx] |}).
Proof.
  intros Hacc Hid Hname Hlook.
  rewrite check_eq, (_check_permission_accepts _ _ Hacc), get_identity_eq, Hid.
  cbn [fst snd]. rewrite get_role_eq. cbn. rewrite Hname, Hlook.
  unfold named. cbn. now rewrite <- app_assoc.
Qed.

Lemma check_granted_run permission ctx s identity w1 name w2 role :
  ~ rejects (self s) permission ->
  _get_identity (self s) ctx (world s) = (Return identity, w1) ->
  _get_role (self s) identity ctx w1 = (Return name, w2) ->
  roles (self s) !! name = Some role ->
  check permission ctx s =
    (fst (role_check role identity permission ctx w2),
     {| self := self s;
        world := snd (role_check role identity permission ctx w2);
        calls := calls s ++ [CallGetIdentity ctx; CallGetRole identity ctx;
                             CallRoleCheck role identity permission ctx] |}).
Proof.
  intros Hacc Hid Hname Hlook.
  rewrite check_eq, (_check_permission_accepts _ _ Hacc), get_identity_eq, Hid.
  cbn [fst snd]. rewrite get_role_eq. cbn. rewrite Hname, Hlook, invoke_eq.
  cbn. now rewrite <- !app_assoc.
Qed.

(** What the role loop leaves in the dictionary comes from the roles or was
    there before. *)
Lemma register_roles_lookup rs : forall d d',
  for_each register_role d rs = Return d' ->
  forall k r, d' !! k = Some r ->
              (r ∈ rs /\ role_name r = k) \/ d !! k = Some r.
Proof.
  induction rs as [|r0 rs IH]; intros d d' H k r Hk; cbn in H.
  - injection H as <-. now right.
  - unfold register_role at 1 in H.
    destruct (contains d (role_name r0)); [discriminate|].
    destruct (IH _ _ H k r Hk) as [[Hin Hname]|Hins].
    + left. split; [now apply list_elem_of_further|exact Hname].
    + apply lookup_insert_Some in Hins as [[<- <-]|[_ Hd]].
      * left. split; [apply list_elem_of_here|reflexivity].
      * now right.
Qed.

(** The role loop stops at the first role whose name is taken. *)
Lemma register_roles_first_repeat pre r post : forall d,
  NoDup (role_name <$> pre) ->
  (forall x, x ∈ pre -> d !! role_name x = None) ->
  role_name r ∈ role_name <$> pre \/ is_Some (d !! role_name r) ->
  for_each register_role d (pre ++ r :: post) =
    Raise (AssertionError (registered_message (role_name r))).
Proof.
  induction pre as [|x pre IH]; intros d Hnodup Hfresh Hr; cbn.
  - destruct Hr as [Hr|[v Hv]]; [now apply not_elem_of_nil in Hr|].
    unfold register_role, contains. now rewrite Hv.
  - rewrite fmap_cons in Hnodup.
    apply NoDup_cons in Hnodup as [Hnotin Hnodup].
    unfold register_role at 1, contains.
    rewrite (Hfresh x) by apply list_elem_of_here.
    apply IH; [exact Hnodup| |].
    + intros y Hy. rewrite lookup_insert_ne.
      * apply Hfresh. now apply list_elem_of_further.
      * intros E. apply Hnotin. rewrite E. now apply list_elem_of_fmap_2.
    + destruct Hr as [Hr|[v Hv]].
      * rewrite fmap_cons in Hr. apply elem_of_cons in Hr as [E|Hr].
        -- right. rewrite E, lookup_insert_eq. eauto.
        -- now left.
      * right. destruct (decide (role_name x = role_name r)) as [E|E].
        -- rewrite E, lookup_insert_eq. eauto.
        -- rewrite lookup_insert_ne by exact E. eauto.
Qed.

(** The permission loop leaves an empty dictionary for an empty list only. *)
Lemma register_permissions_size l :
  size (foldl register_permission ∅ l) = 0 <-> l = [].
Proof.
  split; [|now intros ->].
  destruct l as [|e l]; [reflexivity|]. intros Hsize.
  apply map_size_empty_iff in Hsize.
  destruct (proj2 (register_permissions_keys (e :: l) ∅ (entry_name e)))
    as [v Hv].
  { left. rewrite fmap_cons. apply list_elem_of_here. }
  rewrite Hsize, lookup_empty in Hv. discriminate.
Qed.

(** X1: validation.  [_check_permission] never changes the state.  It raises
    exactly when the universe is configured, is not empty and lacks the name,
    and what it raises is [PermissionNotFound] with the message that quotes
    the name; in every other case it returns normally. *)
Theorem _check_permission_exact permission s :
  snd (_check_permission permission s) = s /\
  ((exists u, permissions (self s) = Some u /\ u <> ∅ /\
              u !! permission = None) ->
   fst (_check_permission permission s) =
     Raise (PermissionNotFound (not_found_message permission))) /\
  (~ (exists u, permissions (self s) = Some u /\ u <> ∅ /\
                u !! permission = None) ->
   fst (_check_permission permission s) = Return tt).
Proof.
  split; [apply _check_permission_state|].
  unfold _check_permission, bind, attr, truth, contains. cbn.
  destruct (permissions (self s)) as [d|]; cbn.
  - destruct (Nat.eqb_spec (size d) 0) as [E|E]; cbn.
    + apply map_size_empty_iff in E. split; [|reflexivity].
      intros (u & [= <-] & Hu & _). tauto.
    + apply map_size_non_empty_iff in E.
      destruct (d !! permission) eqn:L; cbn.
      * split; [|reflexivity]. intros (u & [= <-] & _ & Hu). congruence.
      * split; [reflexivity|]. intros H. exfalso. apply H. eauto.
  - split; [|reflexivity]. intros (u & Hu & _). discriminate.
Qed.

(** X2: the order of [filter].  Validation comes first: a rejected name
    raises [PermissionNotFound] and leaves the state as it was.  Otherwise
    the identity provider runs in the world [filter] found; if it answers,
    the role name provider runs with that identity in the world the identity
    provider left; if it answers a registered name, the filter of that role
    runs in the world the role name provider left.  The first step that
    raises ends the call with its exception, and an unregistered name ends it
    with [RoleNotFound]. *)
Theorem filter_decision_order permission objects ctx s :
  (rejects (self s) permission ->
   filter permission objects ctx s =
     (Raise (PermissionNotFound (not_found_message permission)), s)) /\
  (~ rejects (self s) permission ->
   (forall e w1,
       _get_identity (self s) ctx (world s) = (Raise e, w1) ->
       filter permission objects ctx s =
         (Raise e,
          {| self := self s; world := w1;
             calls := calls s ++ [CallGetIdentity ctx] |})) /\
   (forall identity w1,
       _get_identity (self s) ctx (world s) = (Return identity, w1) ->
       (forall e w2,
           _get_role (self s) identity ctx w1 = (Raise e, w2) ->
           filter permission objects ctx s =
             (Raise e,
              {| self := self s; world := w2;
                 calls := calls s ++ [CallGetIdentity ctx;
                                      CallGetRole identity ctx] |})) /\
       (forall name w2,
           _get_role (self s) identity ctx w1 = (Return name, w2) ->
           (roles (self s) !! name = None ->
            filter permission objects ctx s =
              (Raise RoleNotFound,
               {| self := self s; world := w2;
                  calls := calls s ++ [CallGetIdentity ctx;
                                       CallGetRole identity ctx] |})) /\
           (forall role,
               roles (self s) !! name = Some role ->
               filter permission objects ctx s =
                 (fst (role_filter role identity permission objects ctx w2),
                  {| self := self s;
                     world :=
                       snd (role_filter role identity permission objects
                              ctx w2);
                     calls := calls s ++
                       [CallGetIdentity ctx; CallGetRole identity ctx;
                        CallRoleFilter role identity permission objects
                                       ctx] |}))))).
Proof.
  split.
  - intros H. now rewrite filter_eq, (_check_permission_rejects _ _ H).
  - intros Hacc.
    rewrite filter_eq, (_check_permission_accepts _ _ Hacc), get_identity_eq.
    split.
    + intros e w1 ->. reflexivity.
    + intros identity w1 ->. cbn [fst snd]. rewrite get_role_eq. cbn. split.
      * intros e w2 ->. unfold named. cbn. now rewrite <- app_assoc.
      * intros name w2 ->. split.
        -- intros ->. unfold named. cbn. now rewrite <- app_assoc.
        -- intros role ->. rewrite invoke_eq. cbn. now rewrite <- !app_assoc.
Qed.

(** X3: [filter] returns a collection exactly when every step succeeded:
    validation passed, the identity provider and the role name provider
    answered, the name is a key of [self.roles], and the filter of that role,
    called with the same identity, name, objects and context, returned that
    collection.  In every other case [filter] raises. *)
Theorem filter_returns_iff permission objects ctx s result :
  fst (filter permission objects ctx s) = Return result <->
  fst (_check_permission permission s) = Return tt /\
  exists identity w1 name w2 role,
    _get_identity (self s) ctx (world s) = (Return identity, w1) /\
    _get_role (self s) identity ctx w1 = (Return name, w2) /\
    roles (self s) !! name = Some role /\
    fst (role_filter role identity permission objects ctx w2) = Return result.
Proof.
  rewrite filter_result. split.
  - destruct (fst (_check_permission permission s)) as [[]|e]; [|easy].
    destruct (_get_identity (self s) ctx (world s)) as [[who|e] w1]; [|easy].
    destruct (_get_role (self s) who ctx w1) as [[name|e] w2] eqn:Hname;
      [|easy].
    destruct (roles (self s) !! name) as [role|] eqn:Hlook; [|easy].
    intros H. split; [reflexivity|].
    exists who, w1, name, w2, role. auto.
  - intros (-> & identity & w1 & name & w2 & role & -> & -> & -> & H).
    exact H.
Qed.

(** X4: [check] grants only what a registered role grants.  It returns
    [True] exactly when validation passed, both providers answered, the name
    is a key of [self.roles] and the check of that role returned [True]. *)
Theorem check_grants_iff permission ctx s :
  fst (check permission ctx s) = Return true <->
  fst (_check_permission permission s) = Return tt /\
  exists identity w1 name w2 role,
    _get_identity (self s) ctx (world s) = (Return identity, w1) /\
    _get_role (self s) identity ctx w1 = (Return name, w2) /\
    roles (self s) !! name = Some role /\
    fst (role_check role identity permission ctx w2) = Return true.
Proof.
  rewrite check_result. split.
  - destruct (fst (_check_permission permission s)) as [[]|e]; [|easy].
    destruct (_get_identity (self s) ctx (world s)) as [[who|e] w1]; [|easy].
    destruct (_get_role (self s) who ctx w1) as [[name|e] w2] eqn:Hname;
      [|now destruct e].
    destruct (roles (self s) !! name) as [role|] eqn:Hlook; [|easy].
    intros H. split; [reflexivity|].
    exists who, w1, name, w2, role. auto.
  - intros (-> & identity & w1 & name & w2 & role & -> & -> & -> & H).
    exact H.
Qed.

(** X5: a policy without roles.  When [self.roles] is empty, [check] never
    returns [True] and [filter] never returns a collection. *)
Theorem no_roles_no_access permission objects ctx s :
  roles (self s) = ∅ ->
  fst (check permission ctx s) <> Return true /\
  forall result, fst (filter permission objects ctx s) <> Return result.
Proof.
  intros Hempty. rewrite check_result, filter_result.
  destruct (fst (_check_permission permission s)) as [[]|e]; [|easy].
  destruct (_get_identity (self s) ctx (world s)) as [[who|e] w1]; [|easy].
  destruct (_get_role (self s) who ctx w1) as [[name|e] w2].
  - rewrite Hempty, lookup_empty. easy.
  - split; [now destruct e|easy].
Qed.

(** X6: resolution on a constructed policy.  On a policy the constructor
    returned, every role [get_role] returns is one of the roles given to the
    constructor, and its name is the name the role name provider answered. *)
Theorem constructed_get_role rs get_identity0 get_role0 permissions0 p
    identity ctx s role :
  __init__ rs get_identity0 get_role0 permissions0 = Return p ->
  self s = p ->
  fst (get_role identity ctx s) = Return role ->
  role ∈ rs /\
  fst (get_role0 identity ctx (world s)) = Return (role_name role).
Proof.
  unfold __init__.
  destruct (for_each register_role ∅ rs) as [d|e] eqn:Hloop; [|discriminate].
  intros [= <-] Hself. rewrite get_role_eq, Hself. cbn.
  destruct (get_role0 identity ctx (world s)) as [[name|e] w]; [|easy].
  cbn. destruct (d !! name) as [r|] eqn:Hlook; [|easy].
  intros [= ->].
  destruct (register_roles_lookup rs ∅ d Hloop name role Hlook)
    as [[Hin Hname]|Hnone].
  - now rewrite Hname.
  - now rewrite lookup_empty in Hnone.
Qed.

(** X7: validation on a constructed policy.  On a policy the constructor
    returned, validation rejects a name exactly when a list of permissions
    was given, the list is not empty and no entry of it carries the name. *)
Theorem constructed_validation rs get_identity0 get_role0 permissions0 p
    permission s :
  __init__ rs get_identity0 get_role0 permissions0 = Return p ->
  self s = p ->
  raises (fst (_check_permission permission s)) is_PermissionNotFound <->
  exists l, permissions0 = Some l /\ l <> [] /\
            permission ∉ entry_name <$> l.
Proof.
  unfold __init__.
  destruct (for_each register_role ∅ rs) as [d|e]; [|discriminate].
  intros [= <-] Hself. rewrite _check_permission_raises, Hself. cbn.
  destruct permissions0 as [l|].
  - split.
    + intros (u & [= <-] & Hsize & Hnone). exists l.
      split; [reflexivity|]. split.
      * intros ->. now apply Hsize.
      * intros Hin.
        destruct (proj2 (register_permissions_keys l ∅ permission))
          as [v Hv]; [now left|]. congruence.
    + intros (l' & [= <-] & Hne & Hnotin). eexists.
      split; [reflexivity|]. split.
      * intros Hsize. now apply register_permissions_size in Hsize.
      * destruct (foldl register_permission ∅ l !! permission) as [v|] eqn:Hv;
          [|reflexivity].
        exfalso. apply Hnotin.
        destruct (proj1 (register_permissions_keys l ∅ permission))
          as [Hin|Hin]; [eauto|exact Hin|].
        rewrite lookup_empty in Hin. now apply is_Some_None in Hin.
  - split.
    + intros (u & Hu & _). discriminate.
    + intros (l & Hl & _). discriminate.
Qed.

(** X8: the role the constructor reports.  When the roles before [r] carry
    distinct names and one of them carries the name of [r], the constructor
    raises the [AssertionError] whose message quotes the name of [r],
    whatever follows [r] in the sequence. *)
Theorem init_reports_first_repeat pre r post get_identity0 get_role0
    permissions0 :
  NoDup (role_name <$> pre) ->
  role_name r ∈ role_name <$> pre ->
  __init__ (pre ++ r :: post) get_identity0 get_role0 permissions0 =
    Raise (AssertionError (registered_message (role_name r))).
Proof.
  intros Hnodup Hin. unfold __init__.
  rewrite (register_roles_first_repeat pre r post ∅ Hnodup).
  - reflexivity.
  - intros x _. apply lookup_empty.
  - now left.
Qed.

(** X9: nothing is remembered between two calls.  A second [check], made
    right after a first one, asks the identity provider again, in the world
    the first call left, and then the role name provider; it answers from
    what they return then: [False] when that role name is not registered,
    and what the check of the role returns when it is.  What the first call
    resolved plays no part. *)
Theorem check_resolves_again permission ctx s identity w1 name w2 :
  ~ rejects (self s) permission ->
  _get_identity (self s) ctx (world (snd (check permission ctx s))) =
    (Return identity, w1) ->
  _get_role (self s) identity ctx w1 = (Return name, w2) ->
  (roles (self s) !! name = None ->
   fst (check permission ctx (snd (check permission ctx s))) = Return false /\
   world (snd (check permission ctx (snd (check permission ctx s)))) = w2) /\
  (forall role,
      roles (self s) !! name = Some role ->
      fst (check permission ctx (snd (check permission ctx s))) =
        fst (role_check role identity permission ctx w2) /\
      world (snd (check permission ctx (snd (check permission ctx s)))) =
        snd (role_check role identity permission ctx w2)).
Proof.
  intros Hacc Hid Hname.
  pose proof (check_self permission ctx s) as Hself.
  rewrite <- Hself in Hacc, Hid, Hname.
  split.
  - intros Hlook. rewrite <- Hself in Hlook.
    now rewrite (check_unresolved_run _ _ _ _ _ _ _ Hacc Hid Hname Hlook).
  - intros role Hlook. rewrite <- Hself in Hlook.
    now rewrite (check_granted_run _ _ _ _ _ _ _ _ Hacc Hid Hname Hlook).
Qed.

End Policy.

Arguments mkRole {Identity Context Objects World}.
Arguments role_name {Identity Context Objects World}.
Arguments role_check {Identity Context Objects World}.
Arguments role_filter {Identity Context Objects World}.
Arguments mkPolicy {Identity Context Objects World}.
Arguments roles {Identity Context Objects World}.
Arguments permissions {Identity Context Objects World}.
Arguments __init__ {Identity Context Objects World}.
Arguments mkState {Identity Context Objects World}.
Arguments self {Identity Context Objects World}.
Arguments world {Identity Context Objects World}.
Arguments calls {Identity Context Objects World}.
Arguments CallGetIdentity {Identity Context Objects World}.
Arguments CallGetRole {Identity Context Objects World}.
Arguments CallRoleCheck {Identity Context Objects World}.
Arguments CallRoleFilter {Identity Context Objects World}.
Arguments _check_permission {Identity Context Objects World}.
Arguments get_identity {Identity Context Objects World}.
Arguments get_role {Identity Context Objects World}.
Arguments check {Identity Context Objects World}.
Arguments filter {Identity Context Objects World}.
Arguments admits {Identity Context Objects World}.
Arguments rejects {Identity Context Objects World}.
Arguments same_name_twice {Identity Context Objects World}.
Arguments fixed_output {World A}.
Arguments fixed_outputs {Identity Context Objects World}.

(** ** The scenarios of the specification

    Identities and role names are strings, the context is the list of the
    positional arguments, the objects are numbers, and the world counts the
    work the collaborators have done: one for an identity lookup, ten for a
    role name lookup, a hundred for a check or a filter of a role. *)

Definition current_user (who : string) (ctx : list string)
  : callable nat string :=
  fun w => (Return who, w + 1).

Definition role_called (name : string) (identity : string)
    (ctx : list string) : callable nat string :=
  fun w => (Return name, w + 10).

(** A provider that fails with an exception of its own. *)
Definition broken {A B} (tag : string) (a : A) : callable nat B :=
  fun w => (Raise (OtherError tag), w).

(** The role [viewer] grants [view] and nothing else. *)
Definition viewer : Role string (list string) (list nat) nat :=
  {| role_name := "viewer";
     role_check := fun identity permission ctx w =>
       (Return (String.eqb permission "view"), w + 100);
     role_filter := fun identity permission objects ctx w =>
       if String.eqb permission "view"
       then (Return objects, w + 100)
       else (Raise (OtherError "not applicable"), w) |}.

(** A role whose check fails with [RoleNotFound]. *)
Definition faulty : Role string (list string) (list nat) nat :=
  {| role_name := "faulty";
     role_check := fun identity permission ctx w => (Raise RoleNotFound, w);
     role_filter := fun identity permission objects ctx w =>
       (Return objects, w) |}.

Definition admin (grant : bool) : Role string (list string) (list nat) nat :=
  {| role_name := "admin";
     role_check := fun identity permission ctx w => (Return grant, w + 100);
     role_filter := fun identity permission objects ctx w =>
       (Return objects, w + 100) |}.

(** Scenario A: the universe is [view] and [edit], the only role is
    [viewer], the identity is [u1] and its role is [viewer]. *)
Definition policy_A : Policy string (list string) (list nat) nat :=
  {| _get_identity := current_user "u1";
     _get_role := role_called "viewer";
     roles := <["viewer" := viewer]> ∅;
     permissions :=
       Some (<["edit" := mkPermission "edit"]>
               (<["view" := mkPermission "view"]> ∅)) |}.

(** Scenario C: as scenario A, but the role of the identity is [ghost]. *)
Definition policy_C : Policy string (list string) (list nat) nat :=
  {| _get_identity := current_user "u1";
     _get_role := role_called "ghost";
     roles := <["viewer" := viewer]> ∅;
     permissions :=
       Some (<["edit" := mkPermission "edit"]>
               (<["view" := mkPermission "view"]> ∅)) |}.

(** Scenario D: as scenario A, without a universe. *)
Definition policy_D : Policy string (list string) (list nat) nat :=
  {| _get_identity := current_user "u1";
     _get_role := role_called "viewer";
     roles := <["viewer" := viewer]> ∅;
     permissions := None |}.

(** As scenario A, with a universe that is configured but empty. *)
Definition policy_empty : Policy string (list string) (list nat) nat :=
  {| _get_identity := current_user "u1";
     _get_role := role_called "viewer";
     roles := <["viewer" := viewer]> ∅;
     permissions := Some ∅ |}.

Definition start (p : Policy string (list string) (list nat) nat)
  : State string (list string) (list nat) nat :=
  {| self := p; world := 0; calls := [] |}.

Example policy_A_constructed :
  __init__ [viewer] (current_user "u1") (role_called "viewer")
           (Some [ByName "view"; ByObject (mkPermission "edit")])
  = Return policy_A.
Proof. reflexivity. Qed.

Example policy_empty_constructed :
  __init__ [viewer] (current_user "u1") (role_called "viewer") (Some [])
  = Return policy_empty.
Proof. reflexivity. Qed.

Example policy_D_constructed :
  __init__ [viewer] (current_user "u1") (role_called "viewer") None
  = Return policy_D.
Proof. reflexivity. Qed.

Example scenario_A_view :
  fst (check "view" [] (start policy_A)) = Return true.
Proof. reflexivity. Qed.

Example scenario_A_edit :
  fst (check "edit" [] (start policy_A)) = Return false.
Proof. reflexivity. Qed.

Example scenario_B_delete :
  check "delete" [] (start policy_A) =
    (Raise (PermissionNotFound
              "Permission delete was not found in the list of all permissions."),
     start policy_A).
Proof. reflexivity. Qed.

Example scenario_C :
  fst (check "view" [] (start policy_C)) = Return false /\
  fst (get_role "u1" [] (start policy_C)) = Raise RoleNotFound /\
  fst (filter "view" [1; 2; 3] [] (start policy_C)) = Raise RoleNotFound.
Proof. repeat split. Qed.

Example scenario_D_anything :
  fst (check "anything" [] (start policy_D)) = Return false /\
  calls (snd (check "anything" [] (start policy_D))) =
    [CallGetIdentity []; CallGetRole "u1" [];
     CallRoleCheck viewer "u1" "anything" []].
Proof. split; reflexivity. Qed.

Example scenario_E :
  __init__ [admin true; admin false] (current_user "u1")
           (role_called "admin") None
  = Raise (AssertionError "The role `admin` is already registered.").
Proof. reflexivity. Qed.

(** A policy whose identity provider fails, and one whose only role fails
    its check with [RoleNotFound]. *)
Definition policy_broken : Policy string (list string) (list nat) nat :=
  {| _get_identity := broken "no session";
     _get_role := role_called "viewer";
     roles := <["viewer" := viewer]> ∅;
     permissions := None |}.

Definition policy_faulty : Policy string (list string) (list nat) nat :=
  {| _get_identity := current_user "u1";
     _get_role := role_called "faulty";
     roles := <["faulty" := faulty]> ∅;
     permissions := None |}.

(** A policy whose role name provider fails with a [KeyError] of its own. *)
Definition policy_keyerror : Policy string (list string) (list nat) nat :=
  {| _get_identity := current_user "u1";
     _get_role := fun identity ctx w => (Raise (KeyError "profile"), w);
     roles := <["viewer" := viewer]> ∅;
     permissions := None |}.

(** C1, at the failing input: the universe of [policy_empty] is configured
    and empty, so no name is one of its keys and every name should raise
    [PermissionNotFound].  Validation accepts [delete] and [view] all the
    same: [check] goes on to the role and returns its answer, and [filter]
    returns the objects. *)
Theorem empty_universe_accepts_every_name :
  permissions policy_empty = Some ∅ /\
  _check_permission "delete" (start policy_empty) =
    (Return tt, start policy_empty) /\
  fst (check "delete" [] (start policy_empty)) = Return false /\
  fst (check "view" [] (start policy_empty)) = Return true /\
  fst (filter "view" [1; 2; 3] [] (start policy_empty)) = Return [1; 2; 3].
Proof. repeat split. Qed.

(** C4, at the failing input: [delete] is not a key of the universe of
    [policy_empty], which is configured and empty, so the decision order asks
    for [PermissionNotFound] before any provider is called.  Validation lets
    the name through: the identity provider, the role name provider and the
    check of the role all run, as the world they leave and the calls made
    show, and [check] returns the answer of the role. *)
Theorem empty_universe_resolves_unknown_name :
  permissions policy_empty = Some ∅ /\
  ~ admits policy_empty "delete" /\
  check "delete" [] (start policy_empty) =
    (Return false,
     {| self := policy_empty; world := 111;
        calls := [CallGetIdentity []; CallGetRole "u1" [];
                  CallRoleCheck viewer "u1" "delete" []] |}).
Proof.
  split; [reflexivity|]. split; [|reflexivity].
  intros [v Hv]. discriminate.
Qed.

Lemma check_catches_RoleNotFound_witness :
  admits policy_C "view" /\
  check "view" [] (start policy_C) =
    (Return false,
     {| self := policy_C; world := 11;
        calls := [CallGetIdentity []; CallGetRole "u1" []] |}).
Proof.
  assert (Hadm : admits policy_C "view").
  { exists (mkPermission "view"). reflexivity. }
  split; [exact Hadm|].
  apply (proj1 (check_catches_RoleNotFound _ _ _ _
                  "view" [] (start policy_C))
           "u1"
           {| self := policy_C; world := 1; calls := [CallGetIdentity []] |}).
  - exact Hadm.
  - reflexivity.
  - reflexivity.
Defined.

Lemma filter_propagates_RoleNotFound_witness :
  fst (get_role "u1" [] (start policy_C)) = Raise RoleNotFound /\
  fst (filter "view" [1; 2; 3] [] (start policy_C)) = Raise RoleNotFound.
Proof.
  split.
  - apply (proj1 (filter_propagates_RoleNotFound _ _ _ _)
             "u1" [] (start policy_C) "ghost" 10); reflexivity.
  - apply (proj2 (filter_propagates_RoleNotFound _ _ _ _)
             "view" [1; 2; 3] [] (start policy_C) "u1"
             {| self := policy_C; world := 1; calls := [CallGetIdentity []] |}
             "ghost" 11); reflexivity.
Defined.

Lemma check_returns_role_check_witness :
  fst (check "view" [] (start policy_A)) = Return true /\
  world (snd (check "view" [] (start policy_A))) = 111.
Proof.
  apply (proj1 (check_returns_role_check _ _ _ _ "view" [] (start policy_A)
                  "u1"
                  {| self := policy_A; world := 1;
                     calls := [CallGetIdentity []] |}
                  eq_refl eq_refl)
           viewer
           {| self := policy_A; world := 11;
              calls := [CallGetIdentity []; CallGetRole "u1" []] |}).
  reflexivity.
Defined.

Lemma init_role_names_witness :
  (exists message,
      __init__ [admin true; admin false] (current_user "u1")
               (role_called "admin") None = Raise (AssertionError message)) /\
  (exists p,
      __init__ [viewer; admin true] (current_user "u1")
               (role_called "admin") None = Return p /\
      (forall r, r ∈ [viewer; admin true] -> roles p !! role_name r = Some r) /\
      (forall k r, roles p !! k = Some r ->
                   r ∈ [viewer; admin true] /\ role_name r = k)).
Proof.
  split.
  - apply (proj1 (init_role_names _ _ _ _ [admin true; admin false]
                    (current_user "u1") (role_called "admin") None)).
    exists 0, 1, (admin true), (admin false). repeat split. discriminate.
  - apply (proj2 (init_role_names _ _ _ _ [viewer; admin true]
                    (current_user "u1") (role_called "admin") None)).
    apply (bool_decide_unpack _). vm_compute. exact I.
Defined.

Lemma init_permissions_witness :
  exists u,
    permissions policy_A = Some u /\
    (forall n, is_Some (u !! n) <->
               n ∈ entry_name <$> [ByName "view";
                                   ByObject (mkPermission "edit")]) /\
    (forall n permission,
        u !! n = Some permission ->
        permission_name permission = n /\
        exists e, e ∈ [ByName "view"; ByObject (mkPermission "edit")] /\
                  permission = materialize e) /\
    (forall name,
        ByName name ∈ [ByName "view"; ByObject (mkPermission "edit")] ->
        u !! name = Some (mkPermission name)).
Proof.
  apply (init_permissions _ _ _ _ [viewer] (current_user "u1")
           (role_called "viewer")
           [ByName "view"; ByObject (mkPermission "edit")] policy_A).
  reflexivity.
Defined.

Lemma policy_A_fixed_outputs : fixed_outputs policy_A.
Proof.
  constructor.
  - intros ctx w w'. reflexivity.
  - intros identity ctx w w'. reflexivity.
  - intros name role identity n ctx H w w'. cbn [roles policy_A] in H.
    apply lookup_insert_Some in H as [[_ <-]|[_ H]]; [reflexivity|].
    now rewrite lookup_empty in H.
  - intros name role identity n objects ctx H w w'. cbn [roles policy_A] in H.
    apply lookup_insert_Some in H as [[_ <-]|[_ H]].
    + cbn. now destruct (String.eqb n "view").
    + now rewrite lookup_empty in H.
Defined.


Lemma check_propagates_other_exceptions_witness :
  raises (fst (check "delete" [] (start policy_A))) is_PermissionNotFound /\
  fst (check "view" [] (start policy_broken)) =
    Raise (OtherError "no session") /\
  fst (check "view" [] (start policy_keyerror)) =
    Raise (KeyError "profile") /\
  fst (check "view" [] (start policy_faulty)) = Raise RoleNotFound.
Proof.
  split; [|split; [|split]].
  - rewrite (proj1 (check_propagates_other_exceptions _ _ _ _
                      "delete" [] (start policy_A)) _ eq_refl).
    reflexivity.
  - exact (proj1 (proj2 (check_propagates_other_exceptions _ _ _ _
                           "view" [] (start policy_broken)) eq_refl)
             (OtherError "no session") 0 eq_refl).
  - exact (proj1 (proj2 (proj2 (check_propagates_other_exceptions _ _ _ _
                                  "view" [] (start policy_keyerror)) eq_refl)
                    "u1" 1 eq_refl)
             (KeyError "profile") 1 eq_refl eq_refl).
  - exact (proj2 (proj2 (proj2 (check_propagates_other_exceptions _ _ _ _
                                  "view" [] (start policy_faulty)) eq_refl)
                    "u1" 1 eq_refl)
             "faulty" 11 faulty RoleNotFound 11 eq_refl eq_refl eq_refl).
Defined.

(** ** Instances of the further properties *)

(** A policy without roles and without a universe. *)
Definition policy_no_roles : Policy string (list string) (list nat) nat :=
  {| _get_identity := current_user "u1";
     _get_role := role_called "viewer";
     roles := ∅;
     permissions := None |}.

Lemma _check_permission_exact_witness :
  fst (_check_permission "delete" (start policy_A)) =
    Raise (PermissionNotFound
             "Permission delete was not found in the list of all permissions.")
  /\ fst (_check_permission "delete" (start policy_D)) = Return tt.
Proof.
  split.
  - apply (proj1 (proj2 (_check_permission_exact _ _ _ _
                           "delete" (start policy_A)))).
    eexists. split; [reflexivity|]. split; [apply insert_non_empty|].
    reflexivity.
  - apply (proj2 (proj2 (_check_permission_exact _ _ _ _
                           "delete" (start policy_D)))).
    intros (u & Hu & _). discriminate.
Defined.

Lemma filter_decision_order_witness :
  filter "delete" [1; 2; 3] [] (start policy_A) =
    (Raise (PermissionNotFound
              "Permission delete was not found in the list of all permissions."),
     start policy_A) /\
  filter "view" [1; 2; 3] [] (start policy_C) =
    (Raise RoleNotFound,
     {| self := policy_C; world := 11;
        calls := [CallGetIdentity []; CallGetRole "u1" []] |}) /\
  filter "view" [1; 2; 3] [] (start policy_A) =
    (Return [1; 2; 3],
     {| self := policy_A; world := 111;
        calls := [CallGetIdentity []; CallGetRole "u1" [];
                  CallRoleFilter viewer "u1" "view" [1; 2; 3] []] |}).
Proof.
  assert (HA : ~ rejects policy_A "view").
  { intros (u & [= <-] & _ & Hnone). discriminate. }
  assert (HC : ~ rejects policy_C "view").
  { intros (u & [= <-] & _ & Hnone). discriminate. }
  split; [|split].
  - apply (proj1 (filter_decision_order _ _ _ _
                    "delete" [1; 2; 3] [] (start policy_A))).
    eexists. split; [reflexivity|]. split; [apply insert_non_empty|].
    reflexivity.
  - apply (proj1 (proj2 (proj2 (proj2 (filter_decision_order _ _ _ _
                     "view" [1; 2; 3] [] (start policy_C)) HC)
                     "u1" 1 eq_refl) "ghost" 11 eq_refl)).
    reflexivity.
  - apply (proj2 (proj2 (proj2 (proj2 (filter_decision_order _ _ _ _
                     "view" [1; 2; 3] [] (start policy_A)) HA)
                     "u1" 1 eq_refl) "viewer" 11 eq_refl) viewer).
    reflexivity.
Defined.

Lemma filter_returns_iff_witness :
  fst (filter "view" [1; 2; 3] [] (start policy_A)) = Return [1; 2; 3].
Proof.
  apply (proj2 (filter_returns_iff _ _ _ _
                  "view" [1; 2; 3] [] (start policy_A) [1; 2; 3])).
  split; [reflexivity|].
  exists "u1", 1, "viewer", 11, viewer. repeat split.
Defined.

Lemma check_grants_iff_witness :
  fst (check "view" [] (start policy_A)) = Return true.
Proof.
  apply (proj2 (check_grants_iff _ _ _ _ "view" [] (start policy_A))).
  split; [reflexivity|].
  exists "u1", 1, "viewer", 11, viewer. repeat split.
Defined.

Lemma no_roles_no_access_witness :
  fst (check "view" [] (start policy_no_roles)) <> Return true /\
  forall result,
    fst (filter "view" [1; 2; 3] [] (start policy_no_roles)) <> Return result.
Proof.
  apply (no_roles_no_access _ _ _ _
           "view" [1; 2; 3] [] (start policy_no_roles)).
  reflexivity.
Defined.

Lemma constructed_get_role_witness :
  viewer ∈ [viewer] /\
  fst (role_called "viewer" "u1" [] 0) = Return (role_name viewer).
Proof.
  apply (constructed_get_role _ _ _ _
           [viewer] (current_user "u1") (role_called "viewer")
           (Some [ByName "view"; ByObject (mkPermission "edit")])
           policy_A "u1" [] (start policy_A) viewer);
    reflexivity.
Defined.

Lemma constructed_validation_witness :
  raises (fst (_check_permission "delete" (start policy_A)))
         is_PermissionNotFound.
Proof.
  apply (proj2 (constructed_validation _ _ _ _
                  [viewer] (current_user "u1") (role_called "viewer")
                  (Some [ByName "view"; ByObject (mkPermission "edit")])
                  policy_A "delete" (start policy_A) eq_refl eq_refl)).
  eexists. split; [reflexivity|]. split; [discriminate|].
  intros H. cbn in H.
  apply elem_of_cons in H as [H|H]; [discriminate|].
  apply elem_of_cons in H as [H|H]; [discriminate|].
  now apply not_elem_of_nil in H.
Defined.

Lemma init_reports_first_repeat_witness :
  __init__ [admin true; admin false; viewer] (current_user "u1")
           (role_called "admin") None =
    Raise (AssertionError "The role `admin` is already registered.").
Proof.
  apply (init_reports_first_repeat _ _ _ _
           [admin true] (admin false) [viewer]
           (current_user "u1") (role_called "admin") None).
  - apply (bool_decide_unpack _). vm_compute. exact I.
  - apply list_elem_of_here.
Defined.

(** A policy whose providers answer from the world: the identity is [guest]
    in the initial world and [u1] afterwards, and only [u1] has the role
    [viewer]. *)
Definition policy_session : Policy string (list string) (list nat) nat :=
  {| _get_identity := fun ctx w =>
       (Return (if Nat.eqb w 0 then "guest" else "u1"), w + 1);
     _get_role := fun identity ctx w =>
       (Return (if String.eqb identity "u1" then "viewer" else "ghost"),
        w + 10);
     roles := <["viewer" := viewer]> ∅;
     permissions := None |}.

Lemma check_resolves_again_witness :
  check "view" [] (start policy_session) =
    (Return false,
     {| self := policy_session; world := 11;
        calls := [CallGetIdentity []; CallGetRole "guest" []] |}) /\
  fst (check "view" [] (snd (check "view" [] (start policy_session)))) =
    Return true /\
  world (snd (check "view" [] (snd (check "view" [] (start policy_session)))))
    = 122.
Proof.
  split; [reflexivity|].
  assert (Hacc : ~ rejects policy_session "view").
  { intros (u & Hu & _). discriminate. }
  apply (proj2 (check_resolves_again _ _ _ _
                  "view" [] (start policy_session) "u1" 12 "viewer" 22
                  Hacc eq_refl eq_refl)
           viewer).
  reflexivity.
Defined.
